(** * Jobly back end: authorization middleware and SQL fragment builders

    A shallow embedding of
      - middleware/auth.js   (ensureLoggedIn, ensureAdmin, ensureUserOrAdmin),
      - helpers/sql.js       (sqlForPartialUpdate),
      - models/company.js    (Company._makeWhereClause),
      - models/job.js        (Job._makeWhereClause),
    together with the properties of these functions that the specification
    states, and of
      - middleware/auth.js   (authenticateJWT),
      - models/company.js    (Company.update),
      - models/job.js        (Job.update),
    with further properties read off the code. *)

From Stdlib Require Import Ascii.
From stdpp Require Import gmap strings list pretty sorting.

(** ** The fragment of JavaScript the code relies on *)

Module JS.

(** Primitive values.  Numbers are the integer-valued ones (employee
    counts, salaries): NaN, infinities and fractions are left out. *)
Inductive value : Type :=
  | Undefined
  | Null
  | Bool (b : bool)
  | Num (n : Z)
  | Str (s : string).

#[global] Instance value_eq_dec : EqDecision value.
Proof. solve_decision. Defined.

(** ToBoolean: what [if (v)], [!v] and [v || w] look at. *)
Definition truthy (v : value) : bool :=
  match v with
  | Undefined | Null => false
  | Bool b => b
  | Num n => negb (n =? 0)%Z
  | Str EmptyString => false
  | Str (String _ _) => true
  end.

(** [a === b] on primitives (no NaN in the model, so it is equality). *)
Definition strict_eq (a b : value) : bool := bool_decide (a = b).

(** [o.k] on an object used as a record: a missing key reads [undefined]. *)
Definition prop (o : gmap string value) (k : string) : value :=
  default Undefined (o !! k).

(** [Array.prototype.join] on an array of strings. *)
Fixpoint join (sep : string) (l : list string) : string :=
  match l with
  | [] => ""
  | x :: xs =>
      match xs with
      | [] => x
      | _ :: _ => x +:+ sep +:+ join sep xs
      end
  end.

(** [a[i] = v]: overwrite inside the array, extend it (with holes that read
    [undefined]) at or past its end. *)
Definition array_set (a : list value) (i : nat) (v : value) : list value :=
  if decide (i < length a) then <[i:=v]> a
  else a ++ replicate (i - length a) Undefined ++ [v].

(** The text a template literal produces for a non-negative integer. *)
Definition number_text (n : nat) : string := pretty n.

End JS.

(** ** Objects used as maps *)

Module Obj.

(** The property names of [Object.prototype], which every object literal
    inherits, each with the text a template literal gives for the inherited
    value: Node prints a built-in function as below, and [__proto__] reads
    the prototype itself, an object.  Every one of these values is truthy. *)
Definition prototype_text : gmap string string :=
  list_to_map [
    ("constructor", "function Object() { [native code] }");
    ("__defineGetter__", "function __defineGetter__() { [native code] }");
    ("__defineSetter__", "function __defineSetter__() { [native code] }");
    ("hasOwnProperty", "function hasOwnProperty() { [native code] }");
    ("__lookupGetter__", "function __lookupGetter__() { [native code] }");
    ("__lookupSetter__", "function __lookupSetter__() { [native code] }");
    ("isPrototypeOf", "function isPrototypeOf() { [native code] }");
    ("propertyIsEnumerable", "function propertyIsEnumerable() { [native code] }");
    ("toString", "function toString() { [native code] }");
    ("valueOf", "function valueOf() { [native code] }");
    ("toLocaleString", "function toLocaleString() { [native code] }");
    ("__proto__", "[object Object]")
  ].

Definition digit_value (c : ascii) : option N :=
  let n := N_of_ascii c in
  if decide (48 ≤ n ∧ n ≤ 57)%N then Some (n - 48)%N else None.

Fixpoint digits_value (acc : N) (s : string) : option N :=
  match s with
  | EmptyString => Some acc
  | String c rest => d ← digit_value c; digits_value (acc * 10 + d) rest
  end.

(** A property name is an array index when it is the canonical decimal text
    of an integer from 0 to 2^32 - 2. *)
Definition array_index (k : string) : option N :=
  match k with
  | EmptyString => None
  | String _ _ =>
      n ← digits_value 0 k;
      if decide (pretty n = k ∧ (n < 4294967295)%N) then Some n else None
  end.

Definition is_index (kv : string * JS.value) : Prop := is_Some (array_index kv.1).

Definition index_le (a b : string * JS.value) : Prop :=
  (default 0 (array_index a.1) ≤ default 0 (array_index b.1))%N.

#[global] Instance is_index_dec kv : Decision (is_index kv).
Proof. unfold is_index. apply _. Defined.

#[global] Instance index_le_dec a b : Decision (index_le a b).
Proof. unfold index_le. apply _. Defined.

(** The own properties of an object in the order [Object.keys],
    [Object.values] and [Object.entries] enumerate them, given the
    properties in the order they were created (each name once, as an object
    literal or [JSON.parse] creates them): the array indices first, in
    ascending numeric order, then the other names in creation order. *)
Definition own_entries (created : list (string * JS.value)) : list (string * JS.value) :=
  merge_sort index_le (filter is_index created)
  ++ filter (fun kv => ¬ is_index kv) created.

End Obj.

(** ** Errors and the exception monad *)

(** The error classes of expressError.js that the code throws, and the
    TypeError the runtime raises when a property of [undefined] is read. *)
Inductive error : Type :=
  | BadRequestError (message : string)
  | UnauthorizedError
  | TypeError.

#[global] Instance error_eq_dec : EqDecision error.
Proof. solve_decision. Defined.

(** A computation either returns or throws. *)
Inductive completion (A : Type) : Type :=
  | Return (a : A)
  | Throw (e : error).
Arguments Return {A} a.
Arguments Throw {A} e.

#[global] Instance completion_ret : MRet completion := @Return.
#[global] Instance completion_bind : MBind completion :=
  fun A B f c => match c with Return a => f a | Throw e => Throw e end.

(** ** middleware/auth.js *)

Module Auth.

(** The token payload stored in [res.locals.user].  A field the payload
    lacks reads [JS.Undefined]. *)
Record user : Type := { username : JS.value; isAdmin : JS.value }.

(** What a middleware reads of its [(req, res)] pair: [req.body] (the
    object the JSON body parser left, empty when the request had no body),
    [req.params.username] (always a string, it is a path segment) and
    [res.locals.user] ([None] when authenticateJWT stored nothing, that is
    [undefined]). *)
Record exchange : Type := {
  body : gmap string JS.value;
  params_username : string;
  locals_user : option user
}.

(** What the middleware hands to Express: [next()] or [next(err)]. *)
Inductive handoff : Type :=
  | Next
  | NextErr (err : error).

(** [res.locals.user.f]: reading a property of [undefined] throws. *)
Definition member (u : option user) (f : user -> JS.value) : completion JS.value :=
  match u with
  | Some o => Return (f o)
  | None => Throw TypeError
  end.

(** [try { ...; return next(); } catch (err) { return next(err); }] *)
Definition try_next (c : completion unit) : handoff :=
  match c with
  | Return _ => Next
  | Throw err => NextErr err
  end.

Definition ensureLoggedIn (req : exchange) : handoff :=
  try_next (
    match locals_user req with
    | None => Throw UnauthorizedError
    | Some _ => Return ()
    end).

(** [if (!res.locals.user.isAdmin === true) throw ...]: the negation binds
    tighter than [===], so the test compares [!isAdmin] with [true]. *)
Definition ensureAdmin (req : exchange) : handoff :=
  try_next (
    a ← member (locals_user req) isAdmin;
    if JS.strict_eq (JS.Bool (negb (JS.truthy a))) (JS.Bool true)
    then Throw UnauthorizedError
    else Return ()).

Definition ensureUserOrAdmin (req : exchange) : handoff :=
  try_next (
    if JS.truthy (JS.prop (body req) "password") then
      u ← member (locals_user req) username;
      if negb (JS.strict_eq u (JS.Str (params_username req)))
      then Throw UnauthorizedError
      else Return ()
    else
      u ← member (locals_user req) username;
      same_or_admin ←
        (if JS.strict_eq u (JS.Str (params_username req)) then Return true
         else a ← member (locals_user req) isAdmin;
              Return (JS.strict_eq a (JS.Bool true)));
      if negb same_or_admin then Throw UnauthorizedError else Return ()).

End Auth.

(** ** helpers/sql.js *)

Module Sql.

(** The double quote that wraps a column identifier. *)
Definition dquote : string := String "034"%char EmptyString.

(** [jsToSql[colName] || colName], where [jsToSql] holds the own properties
    of the object literal the caller passes: an own entry that is falsy (the
    empty string) is passed over by [||]; without an own entry the lookup
    goes on to [Object.prototype], whose values are truthy and are printed
    into the clause; a name found in neither reads [undefined]. *)
Definition column (jsToSql : gmap string string) (colName : string) : string :=
  match jsToSql !! colName with
  | Some c => if JS.truthy (JS.Str c) then c else colName
  | None =>
      match Obj.prototype_text !! colName with
      | Some inherited => inherited
      | None => colName
      end
  end.

(** The text [$n]. *)
Definition placeholder (n : nat) : string := "$" +:+ JS.number_text n.

(** One element of [cols]: the quoted column, [=], and its placeholder. *)
Definition clause (col : string) (n : nat) : string :=
  dquote +:+ col +:+ dquote +:+ "=" +:+ placeholder n.

(** [keys.map((colName, idx) => ...)] *)
Definition cols (jsToSql : gmap string string) (keys : list string) : list string :=
  imap (fun idx colName => clause (column jsToSql colName) (idx + 1)) keys.

Record fragment : Type := { setCols : string; values : list JS.value }.

(** [dataToUpdate] is the object as [Object.keys] / [Object.values]
    enumerate it: its own properties in the order of [Obj.own_entries]. *)
Definition sqlForPartialUpdate
    (dataToUpdate : list (string * JS.value)) (jsToSql : gmap string string)
  : completion fragment :=
  let keys := dataToUpdate.*1 in
  if decide (length keys = 0) then Throw (BadRequestError "No data")
  else Return {| setCols := JS.join ", " (cols jsToSql keys);
                 values := dataToUpdate.*2 |}.

End Sql.

(** ** Filter builders of the models *)

(** Both builders return [{ whereClause, values }]. *)
Record where_fragment : Type := {
  whereClause : string;
  values : list JS.value
}.

(** The two arrays (and, for companies, the counter) a builder fills. *)
Record builder : Type := {
  clauses : list string;
  bound : list JS.value;
  indexPointer : nat
}.

Module Company.

(** The three keys the builder destructures.  [None] is a key the object
    lacks ([undefined]); the route hands over a string for [name] and
    Numbers for the two bounds. *)
Record searchTerms : Type := {
  name : option string;
  minEmployees : option Z;
  maxEmployees : option Z
}.

(** [clauses.push(`<template>$${indexPointer + 1}`);
     values[indexPointer] = v;  indexPointer += 1;] *)
Definition add_clause (template : string) (v : JS.value) (st : builder) : builder :=
  {| clauses := clauses st ++ [template +:+ JS.number_text (indexPointer st + 1)];
     bound := JS.array_set (bound st) (indexPointer st) v;
     indexPointer := indexPointer st + 1 |}.

Definition step_name (t : searchTerms) (st : builder) : builder :=
  match name t with
  | Some n =>
      if JS.truthy (JS.Str n)
      then add_clause "name ILIKE $" (JS.Str ("%" +:+ n +:+ "%")) st
      else st
  | None => st
  end.

Definition step_min (t : searchTerms) (st : builder) : builder :=
  match minEmployees t with
  | Some lo =>
      if JS.truthy (JS.Num lo)
      then add_clause "num_employees >= $" (JS.Num lo) st
      else st
  | None => st
  end.

(** [minEmployees && minEmployees > maxEmployees], read once the builder
    knows [maxEmployees] is truthy. *)
Definition inverted (t : searchTerms) (hi : Z) : bool :=
  match minEmployees t with
  | Some lo => JS.truthy (JS.Num lo) && (lo >? hi)%Z
  | None => false
  end.

Definition step_max (t : searchTerms) (st : builder) : completion builder :=
  match maxEmployees t with
  | Some hi =>
      if JS.truthy (JS.Num hi) then
        if inverted t hi
        then Throw (BadRequestError "maxEmployees must be higher than minEmployees")
        else Return (add_clause "num_employees <= $" (JS.Num hi) st)
      else Return st
  | None => Return st
  end.

(** The arrays as they stand just before the join, unless the range check
    threw. *)
Definition fill (t : searchTerms) : completion builder :=
  let st := {| clauses := []; bound := []; indexPointer := 0 |} in
  let st := step_name t st in
  let st := step_min t st in
  step_max t st.

Definition _makeWhereClause (t : searchTerms) : completion where_fragment :=
  st ← fill t;
  Return {| whereClause := JS.join " AND " (clauses st); values := bound st |}.

End Company.

Module Job.

(** [title] is a string and [minSalary] a Number when present; [hasEquity]
    is only ever compared with [===], so any value is allowed
    ([JS.Undefined] for a missing key). *)
Record searchTerms : Type := {
  title : option string;
  minSalary : option Z;
  hasEquity : JS.value
}.

(** [clauses.push(`<template>$${values.length + 1}`); values.push(v);]
    (this builder keeps no counter: [indexPointer] stays 0). *)
Definition add_clause (template : string) (v : JS.value) (st : builder) : builder :=
  {| clauses := clauses st ++ [template +:+ JS.number_text (length (bound st) + 1)];
     bound := bound st ++ [v];
     indexPointer := indexPointer st |}.

(** [clauses.push(text)] for a clause that binds nothing. *)
Definition add_literal (text : string) (st : builder) : builder :=
  {| clauses := clauses st ++ [text];
     bound := bound st;
     indexPointer := indexPointer st |}.

Definition step_title (t : searchTerms) (st : builder) : builder :=
  match title t with
  | Some s =>
      if JS.truthy (JS.Str s)
      then add_clause "title ILIKE $" (JS.Str ("%" +:+ s +:+ "%")) st
      else st
  | None => st
  end.

Definition step_salary (t : searchTerms) (st : builder) : builder :=
  match minSalary t with
  | Some lo =>
      if JS.truthy (JS.Num lo)
      then add_clause "salary >= $" (JS.Num lo) st
      else st
  | None => st
  end.

Definition step_equity (t : searchTerms) (st : builder) : builder :=
  if JS.strict_eq (hasEquity t) (JS.Str "true")
  then add_literal "equity > 0.0" st
  else add_literal "1=1" st.

(** The two arrays as they stand just before the join. *)
Definition fill (t : searchTerms) : builder :=
  step_equity t (step_salary t (step_title t
    {| clauses := []; bound := []; indexPointer := 0 |})).

Definition _makeWhereClause (t : searchTerms) : where_fragment :=
  {| whereClause := JS.join " AND " (clauses (fill t));
     values := bound (fill t) |}.

End Job.

(** ** Filter maps without their falsy entries

    Used to state that a builder cannot tell a falsy entry from a missing
    one. *)

Definition keep_truthy {A : Type} (as_value : A -> JS.value) (o : option A) : option A :=
  match o with
  | Some a => if JS.truthy (as_value a) then Some a else None
  | None => None
  end.

Definition company_without_falsy (t : Company.searchTerms) : Company.searchTerms :=
  {| Company.name := keep_truthy JS.Str (Company.name t);
     Company.minEmployees := keep_truthy JS.Num (Company.minEmployees t);
     Company.maxEmployees := keep_truthy JS.Num (Company.maxEmployees t) |}.

Definition job_without_falsy (t : Job.searchTerms) : Job.searchTerms :=
  {| Job.title := keep_truthy JS.Str (Job.title t);
     Job.minSalary := keep_truthy JS.Num (Job.minSalary t);
     Job.hasEquity :=
       if JS.truthy (Job.hasEquity t) then Job.hasEquity t else JS.Undefined |}.

(** The company builder's counter and its two arrays move together. *)
Definition in_step (st : builder) : Prop :=
  length (clauses st) = indexPointer st ∧ length (bound st) = indexPointer st.

(** ** middleware/auth.js: authenticateJWT *)

Module Token.

(** The WhiteSpace and LineTerminator code points below 256: what
    [String.prototype.trim] strips from a header value (Node hands a header
    over with one character per byte). *)
Definition is_space (c : ascii) : bool :=
  match N_of_ascii c with
  | 9%N | 10%N | 11%N | 12%N | 13%N | 32%N | 160%N => true
  | _ => false
  end.

Fixpoint trim_start (s : string) : string :=
  match s with
  | EmptyString => EmptyString
  | String c rest => if is_space c then trim_start rest else s
  end.

Fixpoint trim_end (s : string) : string :=
  match s with
  | EmptyString => EmptyString
  | String c rest =>
      match trim_end rest with
      | EmptyString => if is_space c then EmptyString else String c EmptyString
      | kept => String c kept
      end
  end.

(** [s.trim()] *)
Definition trim (s : string) : string := trim_end (trim_start s).

(** [s.replace(/^[Bb]earer /, "")]: the pattern is anchored, so at most the
    first seven characters go. *)
Definition strip_bearer (s : string) : string :=
  match s with
  | String c (String "e" (String "a" (String "r" (String "e" (String "r"
      (String " " rest)))))) =>
      if Ascii.eqb c "B" || Ascii.eqb c "b" then rest else s
  | _ => s
  end.

(** The token handed to [jwt.verify]. *)
Definition token_of (authHeader : string) : string := trim (strip_bearer authHeader).

Section with_jwt.

(** [jwt.verify(token, SECRET_KEY)]: the payload, or [None] when it throws
    (whatever it throws, the catch of authenticateJWT drops it). *)
Variable verify : string -> option Auth.user.

(** [authorization] is [req.headers.authorization]; the result is what is
    handed to Express and [res.locals.user] as the middleware leaves it. *)
Definition authenticateJWT (authorization : option string) (locals_user : option Auth.user)
  : Auth.handoff * option Auth.user :=
  match authorization with
  | Some authHeader =>
      if JS.truthy (JS.Str authHeader) then
        match verify (token_of authHeader) with
        | Some payload => (Auth.Next, Some payload)
        | None => (Auth.Next, locals_user)
        end
      else (Auth.Next, locals_user)
  | None => (Auth.Next, locals_user)
  end.

End with_jwt.

End Token.

(** ** models: update *)

(** What a model method that queries the database ends with: the row, an
    error of the kinds above, or the NotFoundError of expressError.js. *)
Inductive outcome (A : Type) : Type :=
  | Row (a : A)
  | Thrown (e : error)
  | NotFoundError (message : string).
Arguments Row {A} a.
Arguments Thrown {A} e.
Arguments NotFoundError {A} message.

(** The two arguments of [db.query]. *)
Record statement : Type := { text : string; params : list JS.value }.

(** The line break of a template literal. *)
Definition nl : string := String "010"%char EmptyString.

Module CompanyStore.

Definition jsToSql : gmap string string :=
  <["numEmployees" := "num_employees"]> (<["logoUrl" := "logo_url"]> ∅).

(** Company.update up to its call of [db.query]. *)
Definition update_statement (handle : string) (data : list (string * JS.value))
  : completion statement :=
  f ← Sql.sqlForPartialUpdate data jsToSql;
  let handleVarIdx := "$" +:+ JS.number_text (length (Sql.values f) + 1) in
  let querySql :=
    nl +:+ "      UPDATE companies" +:+
    nl +:+ "      SET " +:+ Sql.setCols f +:+
    nl +:+ "        WHERE handle = " +:+ handleVarIdx +:+
    nl +:+ "        RETURNING handle, name, description, num_employees AS "
       +:+ Sql.dquote +:+ "numEmployees" +:+ Sql.dquote
       +:+ ", logo_url AS " +:+ Sql.dquote +:+ "logoUrl" +:+ Sql.dquote in
  Return {| text := querySql; params := Sql.values f ++ [JS.Str handle] |}.

Section with_db.

(** The rows [db.query] answers a statement with. *)
Context {row : Type} (query : statement -> list row).

Definition update (handle : string) (data : list (string * JS.value)) : outcome row :=
  match update_statement handle data with
  | Throw e => Thrown e
  | Return s =>
      match query s with
      | [] => NotFoundError ("No company: " +:+ handle)
      | company :: _ => Row company
      end
  end.

End with_db.

End CompanyStore.

Module JobStore.

Definition jsToSql : gmap string string :=
  <["title" := "title"]> (<["salary" := "salary"]> (<["equity" := "equity"]> ∅)).

(** Job.update up to its call of [db.query]; [id] is the path segment the
    route passes. *)
Definition update_statement (id : string) (data : list (string * JS.value))
  : completion statement :=
  f ← Sql.sqlForPartialUpdate data jsToSql;
  let idVarIdx := "$" +:+ JS.number_text (length (Sql.values f) + 1) in
  let querySql :=
    "UPDATE jobs" +:+
    nl +:+ "                        SET " +:+ Sql.setCols f +:+
    nl +:+ "                        WHERE id=" +:+ idVarIdx +:+
    nl +:+ "                        RETURNING id, title, salary, equity, company_handle as "
       +:+ Sql.dquote +:+ "companyHandle" +:+ Sql.dquote in
  Return {| text := querySql; params := Sql.values f ++ [JS.Str id] |}.

Section with_db.

Context {row : Type} (query : statement -> list row).

Definition update (id : string) (data : list (string * JS.value)) : outcome row :=
  match update_statement id data with
  | Throw e => Thrown e
  | Return s =>
      match query s with
      | [] => NotFoundError ("No job id: " +:+ id)
      | job :: _ => Row job
      end
  end.

End with_db.

End JobStore.

(** ** Closed forms of the filter builders *)

(** The clauses of a list of templates, numbered from 1 in order. *)
Definition numbered (templates : list string) : list string :=
  imap (fun i template => template +:+ JS.number_text (i + 1)) templates.

(** Whether a key is present with a truthy value. *)
Definition opt_truthy {A : Type} (as_value : A -> JS.value) (o : option A) : bool :=
  from_option (fun a => JS.truthy (as_value a)) false o.

(** The [%...%] pattern bound for a name or a title. *)
Definition like_pattern (s : string) : JS.value := JS.Str ("%" +:+ s +:+ "%").

(** The text of a statement a model prepared, if it prepared one. *)
Definition prepared_text (c : completion statement) : option string :=
  match c with
  | Return s => Some (text s)
  | Throw _ => None
  end.

(** * Properties *)

(** ** Authorization decisions *)

Section auth_facts.
Import Auth.

Implicit Types (req : exchange) (u : user).

(** Unfolds a middleware down to the case analysis on its inputs. *)
Local Ltac run_middleware :=
  unfold ensureLoggedIn, ensureAdmin, ensureUserOrAdmin, try_next, member,
    mbind, completion_bind, JS.strict_eq; simpl.

Lemma ensureLoggedIn_allows_iff req :
  ensureLoggedIn req = Next ↔ is_Some (locals_user req).
Proof.
  run_middleware. by destruct (locals_user req); split; intros H.
Qed.

(** X1: ensureAdmin calls [next()] exactly when an identity is present and
    its isAdmin is truthy. *)
Lemma ensureAdmin_allows_iff req :
  ensureAdmin req = Next ↔
  ∃ u, locals_user req = Some u ∧ JS.truthy (isAdmin u) = true.
Proof.
  run_middleware. destruct (locals_user req) as [u|]; simpl.
  - destruct (JS.truthy (isAdmin u)) eqn:Ht; simpl;
      (split; [intros H | intros (? & ? & ?)]); simplify_eq; eauto; congruence.
  - split; [done | by intros (? & ? & _)].
Qed.

(** Once an identity is present, every denial of the three middlewares is
    the UnauthorizedError. *)
Lemma identified_denial_is_Unauthorized req u err :
  locals_user req = Some u →
  ensureLoggedIn req = NextErr err ∨ ensureAdmin req = NextErr err
    ∨ ensureUserOrAdmin req = NextErr err →
  err = UnauthorizedError.
Proof.
  intros Hu. run_middleware. rewrite Hu. simpl.
  intros [H | [H | H]]; repeat (case_match; simplify_eq/=); done.
Qed.

(** What ensureUserOrAdmin does: it calls [next()] exactly when an identity
    is present and, if the body's password is truthy, its username is the
    one of the route path, and otherwise its username is the one of the
    route path or its isAdmin is the boolean true. *)
Theorem ensureUserOrAdmin_allows_iff req :
  ensureUserOrAdmin req = Next ↔
  ∃ u, locals_user req = Some u ∧
    if JS.truthy (JS.prop (body req) "password")
    then username u = JS.Str (params_username req)
    else username u = JS.Str (params_username req) ∨ isAdmin u = JS.Bool true.
Proof.
  run_middleware.
  destruct (JS.truthy (JS.prop (body req) "password"));
    destruct (locals_user req) as [u|]; simpl;
    try (split; [done | by intros (? & ? & _)]).
  - case_bool_decide; simpl;
      (split; [intros Hgo | intros (? & ? & ?)]); simplify_eq; eauto.
  - repeat (case_bool_decide; simpl);
      (split; [intros Hgo | intros (? & ? & [?|?])]); simplify_eq; eauto.
Qed.

(** C1, at the failing input: the body carries a password field (the empty
    string), the caller bob is an admin and not the alice of the path, and
    the request goes through, against the rule that a request with a
    password is for the user alone. *)
Lemma ensureUserOrAdmin_empty_password_keeps_admin_override :
  is_Some (({["password" := JS.Str ""]} : gmap string JS.value) !! "password")
  ∧ JS.Str "bob" ≠ JS.Str "alice"
  ∧ ensureUserOrAdmin
      {| body := {["password" := JS.Str ""]};
         params_username := "alice";
         locals_user := Some {| username := JS.Str "bob"; isAdmin := JS.Bool true |} |}
    = Next.
Proof. split; [by eexists | split; [done | reflexivity]]. Qed.

(** C3, at the failing input: a token payload whose isAdmin is a non-empty
    string, which is not the boolean true, passes ensureAdmin. *)
Theorem ensureAdmin_allows_truthy_string :
  JS.Str "yes" ≠ JS.Bool true
  ∧ ensureAdmin
      {| body := ∅;
         params_username := "u1";
         locals_user := Some {| username := JS.Str "u1"; isAdmin := JS.Str "yes" |} |}
    = Next.
Proof. split; [done | reflexivity]. Qed.

(** C4, at the failing input: with no identity, ensureAdmin and
    ensureUserOrAdmin hand a TypeError to [next], not the
    UnauthorizedError (ensureLoggedIn does hand over the latter). *)
Theorem anonymous_denial_is_TypeError (b : gmap string JS.value) (p : string) :
  let req := {| body := b; params_username := p; locals_user := None |} in
  ensureLoggedIn req = NextErr UnauthorizedError
  ∧ ensureAdmin req = NextErr TypeError
  ∧ ensureUserOrAdmin req = NextErr TypeError.
Proof.
  simpl. repeat split; try reflexivity.
  run_middleware. by destruct (JS.truthy (JS.prop b "password")).
Qed.

End auth_facts.

(** ** The SET fragment *)

Section sql_facts.
Import Sql.

Implicit Types (data : list (string * JS.value)) (tbl : gmap string string).

#[local] Instance placeholder_inj : Inj (=) (=) placeholder.
Proof.
  intros n m Heq. unfold placeholder, JS.number_text in Heq.
  simpl in Heq. injection Heq as Heq. by apply (inj pretty).
Qed.

Lemma length_cols tbl keys : length (cols tbl keys) = length keys.
Proof. unfold cols. apply length_imap. Qed.

Lemma cols_lookup tbl keys i k :
  keys !! i = Some k →
  cols tbl keys !! i = Some (clause (column tbl k) (S i)).
Proof.
  intros Hk. unfold cols. rewrite list_lookup_imap, Hk. simpl.
  by rewrite Nat.add_1_r.
Qed.

(** [cols] pairs the translated keys with the numbers 1, 2, ..., in order. *)
Lemma cols_zip tbl keys :
  cols tbl keys = zip_with clause (column tbl <$> keys) (seq 1 (length keys)).
Proof.
  apply list_eq. intros i. rewrite lookup_zip_with, list_lookup_fmap.
  destruct (keys !! i) as [k|] eqn:Hk.
  - rewrite (cols_lookup _ _ _ _ Hk). simpl.
    rewrite lookup_seq_lt by (by eapply lookup_lt_Some). done.
  - simpl. apply lookup_ge_None. rewrite length_cols.
    by apply lookup_ge_None.
Qed.

Lemma sqlForPartialUpdate_nonempty data tbl :
  data ≠ [] →
  sqlForPartialUpdate data tbl
  = Return {| setCols := JS.join ", " (cols tbl data.*1); values := data.*2 |}.
Proof.
  intros Hne. unfold sqlForPartialUpdate. case_decide as Hlen; [|done].
  rewrite length_fmap in Hlen. by destruct data.
Qed.

Lemma join_concat (sep : string) (l : list string) :
  JS.join sep l = String.concat sep l.
Proof. induction l as [|x [|y l] IH]; simpl in *; congruence. Qed.

Lemma own_entries_Permutation created : Obj.own_entries created ≡ₚ created.
Proof.
  unfold Obj.own_entries. rewrite merge_sort_Permutation.
  apply filter_app_complement.
Qed.

Lemma own_entries_no_index created :
  Forall (fun kv => Obj.array_index kv.1 = None) created →
  Obj.own_entries created = created.
Proof.
  intros Hnone. unfold Obj.own_entries.
  assert (filter Obj.is_index created = []) as ->.
  { induction Hnone as [|kv l Hkv _ IH]; [done|].
    rewrite filter_cons_False; [done|].
    unfold Obj.is_index. rewrite Hkv. by intros [? ?]. }
  simpl. induction Hnone as [|kv l Hkv _ IH]; [done|].
  rewrite filter_cons_True; [by rewrite IH|].
  unfold Obj.is_index. rewrite Hkv. by intros [? ?].
Qed.

(** C5, amended: for a non-empty update map of N fields the result is the
    N clauses joined by a comma and a space, and N values.  The clauses
    stand in the order in which [Object.keys] enumerates the map, which is
    the insertion order when no field name is an array index (such names
    come first, in ascending numeric order); the i-th clause is the quoted
    column of the i-th field followed by [=$i], so the placeholders
    [$1 .. $N] are pairwise different texts, one per clause; and the i-th
    value is the value the map gives the field of the i-th clause. *)
Theorem sqlForPartialUpdate_shape created tbl :
  created ≠ [] →
  ∃ cl : list string,
    sqlForPartialUpdate (Obj.own_entries created) tbl
      = Return {| setCols := String.concat ", " cl;
                  values := (Obj.own_entries created).*2 |}
    ∧ length cl = length created
    ∧ length ((Obj.own_entries created).*2) = length created
    ∧ Obj.own_entries created ≡ₚ created
    ∧ (Forall (fun kv => Obj.array_index kv.1 = None) created →
       Obj.own_entries created = created)
    ∧ NoDup ((fun n : nat => "$" +:+ pretty n) <$> seq 1 (length created))
    ∧ (∀ i k v, Obj.own_entries created !! i = Some (k, v) →
         cl !! i
         = Some (String "034" (column tbl k +:+ String "034" ("=$" +:+ pretty (S i))))
         ∧ (Obj.own_entries created).*2 !! i = Some v).
Proof.
  intros Hne.
  assert (length (Obj.own_entries created) = length created) as Hlen
    by (by rewrite own_entries_Permutation).
  assert (Obj.own_entries created ≠ []) as Hne'.
  { intros Hnil. rewrite Hnil in Hlen. by destruct created. }
  exists (cols tbl (Obj.own_entries created).*1). split_and!.
  - rewrite <- join_concat. by apply sqlForPartialUpdate_nonempty.
  - by rewrite length_cols, length_fmap.
  - by rewrite length_fmap.
  - apply own_entries_Permutation.
  - apply own_entries_no_index.
  - apply (NoDup_fmap_2 placeholder), NoDup_seq.
  - intros i k v Hi. split.
    + erewrite cols_lookup; [done|]. by rewrite list_lookup_fmap, Hi.
    + by rewrite list_lookup_fmap, Hi.
Qed.

Lemma sqlForPartialUpdate_shape_witness :
  ∃ cl : list string,
    sqlForPartialUpdate
      (Obj.own_entries [("firstName", JS.Str "Aliya"); ("age", JS.Num 32)])
      {["firstName" := "first_name"]}
    = Return {| setCols := String.concat ", " cl;
                values := [JS.Str "Aliya"; JS.Num 32] |}
    ∧ length cl = 2.
Proof.
  destruct (sqlForPartialUpdate_shape
              [("firstName", JS.Str "Aliya"); ("age", JS.Num 32)]
              {["firstName" := "first_name"]}) as (cl & Hrun & Hlen & _).
  - discriminate.
  - exists cl. split; [exact Hrun | exact Hlen].
Defined.

(** C5, counterexample: the map was given the field b first and the field
    1 second, and the clause of the field 1 comes first. *)
Lemma sqlForPartialUpdate_index_name_comes_first :
  sqlForPartialUpdate (Obj.own_entries [("b", JS.Str "x"); ("1", JS.Str "y")]) ∅
  = Return {| setCols :=
                String "034" ("1" +:+ String "034" ("=$1, "
                  +:+ String "034" ("b" +:+ String "034" "=$2")));
              values := [JS.Str "y"; JS.Str "x"] |}.
Proof. reflexivity. Qed.

(** C6: the helper throws exactly on the empty map, and what it throws is
    BadRequestError("No data"); every other map, whatever its values, gets
    its fragment, whose text depends on the keys alone. *)
Theorem sqlForPartialUpdate_empty_only data tbl :
  (sqlForPartialUpdate data tbl = Throw (BadRequestError "No data") ↔ data = [])
  ∧ (data = [] ∨
     sqlForPartialUpdate data tbl
     = Return {| setCols := JS.join ", " (cols tbl data.*1); values := data.*2 |}).
Proof.
  destruct data as [|kv data].
  - split; [done | by left].
  - rewrite sqlForPartialUpdate_nonempty by done. split; [done | by right].
Qed.

(** Within the contract of the helper the column is what the docstring
    says: the field name itself when neither the table nor
    [Object.prototype] knows it, the table's entry when that is a
    non-empty string. *)
Lemma column_in_contract tbl (k : string) :
  (tbl !! k = None → Obj.prototype_text !! k = None → column tbl k = k)
  ∧ (∀ physical, tbl !! k = Some physical → physical ≠ "" → column tbl k = physical).
Proof.
  unfold column. split.
  - by intros -> ->.
  - intros physical -> Hne. by destruct physical.
Qed.

(** C9, at the failing input: constructor is no key of the table, and the
    clause does not name the column constructor but carries the text of
    the function the table inherits under that name. *)
Theorem sqlForPartialUpdate_inherited_name_is_translated :
  (<["numEmployees" := "num_employees"]> {["logoUrl" := "logo_url"]}
     : gmap string string) !! "constructor" = None
  ∧ sqlForPartialUpdate [("constructor", JS.Str "x")]
      (<["numEmployees" := "num_employees"]> {["logoUrl" := "logo_url"]})
    = Return {| setCols :=
                  String "034" ("function Object() { [native code] }"
                    +:+ String "034" "=$1");
                values := [JS.Str "x"] |}.
Proof. split; reflexivity. Qed.

End sql_facts.

(** ** The WHERE fragments *)

Section join_facts.

Lemma append_empty (s1 s2 : string) : s1 +:+ s2 = "" → s1 = "" ∧ s2 = "".
Proof. by destruct s1. Qed.

Lemma join_snoc (sep : string) (l : list string) (x y : string) :
  JS.join sep ((x :: l) ++ [y]) = x +:+ sep +:+ JS.join sep (l ++ [y]).
Proof. simpl. by destruct l. Qed.

(** A join whose last element is not empty is not empty. *)
Lemma join_last_nonempty (sep : string) (l : list string) (x : string) :
  x ≠ "" → JS.join sep (l ++ [x]) ≠ "".
Proof.
  intros Hx. induction l as [|a l IH]; [done|].
  rewrite join_snoc. intros Hjoin.
  apply append_empty in Hjoin as [_ Hjoin].
  apply append_empty in Hjoin as [_ Hjoin]. by apply IH.
Qed.

(** Writing at the end of an array is a push. *)
Lemma array_set_end (a : list JS.value) (v : JS.value) :
  JS.array_set a (length a) v = a ++ [v].
Proof.
  unfold JS.array_set. case_decide; [lia|]. by rewrite Nat.sub_diag.
Qed.

End join_facts.

Section company_facts.
Import Company.

Implicit Types (t : searchTerms) (st : builder).

Lemma add_clause_in_step template v st :
  in_step st →
  in_step (add_clause template v st)
  ∧ bound (add_clause template v st) = bound st ++ [v].
Proof.
  intros [Hc Hb]. unfold in_step, add_clause. simpl.
  rewrite <- Hb in *. rewrite array_set_end, !length_app. simpl.
  split; [split|done]; lia.
Qed.

Local Ltac split_terms t :=
  destruct t as [[[|? ?]|] [lo|] [hi|]]; simpl;
  repeat match goal with
    | |- context [(?z =? 0)%Z] => destruct (Z.eqb_spec z 0); simpl
    | |- context [(?a >? ?b)%Z] => destruct (Z.gtb_spec a b); simpl
    end.

Lemma fill_in_step t st : fill t = Return st → in_step st.
Proof.
  assert (in_step {| clauses := []; bound := []; indexPointer := 0 |}) as H0
    by done.
  assert (∀ st0, in_step st0 → in_step (step_name t st0)) as Hname.
  { intros st0 ?. unfold step_name. repeat case_match; try done.
    by apply add_clause_in_step. }
  assert (∀ st0, in_step st0 → in_step (step_min t st0)) as Hmin.
  { intros st0 ?. unfold step_min. repeat case_match; try done.
    by apply add_clause_in_step. }
  unfold fill, step_max. intros Hfill.
  repeat case_match; simplify_eq; auto.
  by apply add_clause_in_step; auto.
Qed.

(** Every fragment the builder returns has one bound value per clause. *)
Lemma company_fragment_balanced t r :
  _makeWhereClause t = Return r →
  ∃ cl, whereClause r = JS.join " AND " cl ∧ length cl = length (values r).
Proof.
  unfold _makeWhereClause, mbind, completion_bind.
  destruct (fill t) as [st|] eqn:Hfill; [|done].
  intros [= <-]. exists (clauses st). split; [done|].
  apply fill_in_step in Hfill as [Hc Hb]. simpl. congruence.
Qed.

(** The only throw is the one of the range check, and it needs both
    bounds truthy. *)
Lemma company_throw_cases t e :
  _makeWhereClause t = Throw e ↔
  e = BadRequestError "maxEmployees must be higher than minEmployees"
  ∧ ∃ lo hi, minEmployees t = Some lo ∧ maxEmployees t = Some hi
      ∧ lo ≠ 0%Z ∧ hi ≠ 0%Z ∧ (hi < lo)%Z.
Proof.
  unfold _makeWhereClause, fill, step_max, step_min, step_name, inverted,
    mbind, completion_bind.
  split_terms t; (split; [intros Hthrow | intros (-> & lo' & hi' & ? & ? & ? & ? & ?)]);
    simplify_eq; try done; try lia; split; try done; eauto 10.
Qed.

(** When the company builder throws: exactly when minEmployees and
    maxEmployees are both truthy and minEmployees is greater than
    maxEmployees, and what it throws then is the BadRequestError of the
    range check. *)
Theorem company_range_conflict_iff t e :
  _makeWhereClause t = Throw e ↔
  e = BadRequestError "maxEmployees must be higher than minEmployees"
  ∧ ∃ lo hi, minEmployees t = Some lo ∧ maxEmployees t = Some hi
      ∧ JS.truthy (JS.Num lo) = true ∧ JS.truthy (JS.Num hi) = true
      ∧ (lo > hi)%Z.
Proof.
  rewrite company_throw_cases. simpl.
  split; intros (-> & lo & hi & Hlo & Hhi & Hl & Hh & Hgt);
    (split; [done|]); exists lo, hi; split_and!; try done; lia.
Qed.

(** C7, at the failing input: both bounds are present and 5 > 0, yet the
    builder does not throw: it returns a fragment, without any clause for
    maxEmployees. *)
Lemma company_zero_max_skips_range_check :
  (5 > 0)%Z
  ∧ _makeWhereClause
      {| name := None; minEmployees := Some 5%Z; maxEmployees := Some 0%Z |}
    = Return {| whereClause := "num_employees >= $1"; values := [JS.Num 5] |}.
Proof. split; [done | reflexivity]. Qed.

(** C2, at the failing input: with no filter at all, and likewise with
    only falsy ones, the company builder returns the empty string as its
    WHERE fragment. *)
Theorem company_empty_whereClause :
  _makeWhereClause {| name := None; minEmployees := None; maxEmployees := None |}
    = Return {| whereClause := ""; values := [] |}
  ∧ _makeWhereClause
      {| name := Some ""; minEmployees := Some 0%Z; maxEmployees := Some 0%Z |}
    = Return {| whereClause := ""; values := [] |}.
Proof. split; reflexivity. Qed.

Lemma company_without_falsy_same t :
  _makeWhereClause t = _makeWhereClause (company_without_falsy t).
Proof.
  unfold _makeWhereClause, fill, step_max, step_min, step_name, inverted,
    company_without_falsy, keep_truthy.
  split_terms t; try done; try lia.
Qed.

End company_facts.

Section job_facts.
Import Job.

Implicit Types (t : searchTerms) (st : builder).

(** X18: The job builder's fragment is never the empty string: its last clause
    is the equity test or the tautology. *)
Lemma job_whereClause_nonempty t : whereClause (_makeWhereClause t) ≠ "".
Proof.
  unfold _makeWhereClause, fill, step_equity, add_literal. simpl.
  case_match; simpl; by apply join_last_nonempty.
Qed.

(** The job builder binds one value per parameterized clause. *)
Lemma job_bound_part_balanced t st :
  length (clauses st) = length (bound st) →
  length (clauses (step_salary t (step_title t st)))
  = length (bound (step_salary t (step_title t st))).
Proof.
  intros Hst. unfold step_salary, step_title, add_clause.
  repeat case_match; simpl; rewrite ?length_app; simpl; lia.
Qed.

(** C8: whatever the title and the minimum salary are, the clauses and
    bound values they produce (as many values as clauses) are followed by
    exactly one more clause that depends on hasEquity alone and binds
    nothing: the comparison [equity > 0.0] for the string true, the
    tautology [1=1] for the string false, for a missing key and for every
    other value.  For minSalary 1000 and hasEquity true the result has
    two clauses and the single bound value 1000 under [$1]. *)
Theorem job_hasEquity_tristate :
  (∀ (ti : option string) (sa : option Z), ∃ (cl : list string) (vs : list JS.value),
     length cl = length vs
     ∧ ∀ h : JS.value,
         clauses (fill {| title := ti; minSalary := sa; hasEquity := h |})
           = cl ++ [if decide (h = JS.Str "true") then "equity > 0.0" else "1=1"]
         ∧ _makeWhereClause {| title := ti; minSalary := sa; hasEquity := h |}
           = {| whereClause :=
                  JS.join " AND "
                    (cl ++ [if decide (h = JS.Str "true") then "equity > 0.0" else "1=1"]);
                values := vs |})
  ∧ (∀ (ti : option string) (sa : option Z),
       values (_makeWhereClause {| title := ti; minSalary := sa; hasEquity := JS.Str "true" |})
       = values (_makeWhereClause {| title := ti; minSalary := sa; hasEquity := JS.Undefined |})
       ∧ _makeWhereClause {| title := ti; minSalary := sa; hasEquity := JS.Str "false" |}
         = _makeWhereClause {| title := ti; minSalary := sa; hasEquity := JS.Undefined |})
  ∧ clauses (fill {| title := None; minSalary := Some 1000%Z; hasEquity := JS.Str "true" |})
    = ["salary >= $1"; "equity > 0.0"]
  ∧ _makeWhereClause {| title := None; minSalary := Some 1000%Z; hasEquity := JS.Str "true" |}
    = {| whereClause := "salary >= $1 AND equity > 0.0"; values := [JS.Num 1000] |}.
Proof.
  split_and!; try reflexivity.
  - intros ti sa.
    pose (st := step_salary {| title := ti; minSalary := sa; hasEquity := JS.Undefined |}
                 (step_title {| title := ti; minSalary := sa; hasEquity := JS.Undefined |}
                    {| clauses := []; bound := []; indexPointer := 0 |})).
    exists (clauses st), (bound st). split.
    + by apply job_bound_part_balanced.
    + intros h. unfold _makeWhereClause, fill, step_equity, add_literal, JS.strict_eq.
      destruct (decide (h = JS.Str "true")) as [->|Hne].
      * rewrite bool_decide_eq_true_2 by done. done.
      * rewrite bool_decide_eq_false_2 by done. done.
  - intros ti sa. split; reflexivity.
Qed.

Lemma job_without_falsy_same t :
  _makeWhereClause t = _makeWhereClause (job_without_falsy t).
Proof.
  unfold _makeWhereClause, fill, step_equity, step_salary, step_title,
    job_without_falsy, keep_truthy, JS.strict_eq.
  destruct t as [[[|? ?]|] [sa|] h]; simpl;
    repeat match goal with
      | |- context [(?z =? 0)%Z] => destruct (Z.eqb_spec z 0); simpl
      end;
    destruct h as [| |[|]|z|[|? ?]]; simpl; try done;
    destruct (Z.eqb_spec z 0); simpl; done.
Qed.

End job_facts.

(** C10: a builder cannot tell a recognized key with a falsy value (an
    empty string, the number 0) from a missing key: replacing every falsy
    entry of a filter map by a missing one leaves the result of either
    builder unchanged, so such a key adds no clause and binds no value; and
    with 0 as minEmployees or as maxEmployees the company builder returns a
    fragment whatever the other bound is, the range check being skipped. *)
Theorem falsy_filter_key_is_absent :
  (∀ t, Company._makeWhereClause t = Company._makeWhereClause (company_without_falsy t))
  ∧ (∀ t, Job._makeWhereClause t = Job._makeWhereClause (job_without_falsy t))
  ∧ (∀ (n : option string) (other : option Z),
       (∃ r, Company._makeWhereClause
               {| Company.name := n; Company.minEmployees := Some 0%Z;
                  Company.maxEmployees := other |} = Return r)
       ∧ (∃ r, Company._makeWhereClause
                 {| Company.name := n; Company.minEmployees := other;
                    Company.maxEmployees := Some 0%Z |} = Return r))
  ∧ Company._makeWhereClause
      {| Company.name := Some ""; Company.minEmployees := Some 0%Z;
         Company.maxEmployees := Some 7%Z |}
    = Return {| whereClause := "num_employees <= $1"; values := [JS.Num 7] |}
  ∧ Job._makeWhereClause
      {| Job.title := Some ""; Job.minSalary := Some 0%Z; Job.hasEquity := JS.Undefined |}
    = {| whereClause := "1=1"; values := [] |}.
Proof.
  split_and!; try reflexivity.
  - apply company_without_falsy_same.
  - apply job_without_falsy_same.
  - intros n other. split.
    + destruct (Company._makeWhereClause _) as [r|e] eqn:Hrun; [by eexists|].
      apply company_throw_cases in Hrun as (_ & lo & hi & ? & ? & ? & _).
      simplify_eq/=.
    + destruct (Company._makeWhereClause _) as [r|e] eqn:Hrun; [by eexists|].
      apply company_throw_cases in Hrun as (_ & lo & hi & ? & ? & ? & ? & _).
      simplify_eq/=.
Qed.

(** * Further properties of the code *)

(** ** How the authorization middlewares relate *)

Section auth_relations.
Import Auth.

Implicit Types (req : exchange) (u : user).

Local Ltac unfold_middleware :=
  unfold ensureLoggedIn, ensureAdmin, ensureUserOrAdmin, try_next, member,
    mbind, completion_bind, JS.strict_eq; simpl.

(** X3: A request that ensureAdmin or ensureUserOrAdmin lets through is one
    that ensureLoggedIn lets through. *)
Theorem passing_implies_logged_in req :
  ensureAdmin req = Next ∨ ensureUserOrAdmin req = Next →
  ensureLoggedIn req = Next.
Proof.
  unfold_middleware. destruct (locals_user req); [done|]. simpl.
  intros [H | H]; [done|]. by destruct (JS.truthy _).
Qed.

Lemma passing_implies_logged_in_witness :
  ensureLoggedIn
    {| body := ∅; params_username := "u1";
       locals_user := Some {| username := JS.Str "u1"; isAdmin := JS.Bool false |} |}
  = Next.
Proof.
  apply passing_implies_logged_in. right. reflexivity.
Defined.

(** X4: For an identity whose isAdmin is not the boolean true, the body plays
    no part: ensureUserOrAdmin lets the request through exactly when the
    username is the one of the route path. *)
Theorem non_admin_self_only req u :
  locals_user req = Some u →
  isAdmin u ≠ JS.Bool true →
  ensureUserOrAdmin req = Next ↔ username u = JS.Str (params_username req).
Proof.
  intros Hu Hadmin. unfold_middleware. rewrite Hu. simpl.
  destruct (JS.truthy _); simpl; repeat (case_bool_decide; simpl);
    split; intros Hgo; simplify_eq; done.
Qed.

Lemma non_admin_self_only_witness :
  ensureUserOrAdmin
    {| body := {["password" := JS.Str "new-password"]}; params_username := "u1";
       locals_user := Some {| username := JS.Str "u1"; isAdmin := JS.Bool false |} |}
  = Next.
Proof.
  apply (non_admin_self_only _ {| username := JS.Str "u1"; isAdmin := JS.Bool false |});
    [reflexivity | discriminate | reflexivity].
Defined.

(** X2: With an identity present, each of the three middlewares either calls
    [next()] or hands over the UnauthorizedError: no other error leaves
    them, and ensureLoggedIn lets the request through. *)
Theorem identified_outcomes req u :
  locals_user req = Some u →
  ensureLoggedIn req = Next
  ∧ (ensureAdmin req = Next ∨ ensureAdmin req = NextErr UnauthorizedError)
  ∧ (ensureUserOrAdmin req = Next ∨ ensureUserOrAdmin req = NextErr UnauthorizedError).
Proof.
  intros Hu. unfold_middleware. rewrite Hu. simpl. split_and!; [done | |].
  - destruct (JS.truthy (isAdmin u)); simpl; auto.
  - destruct (JS.truthy _); simpl; repeat (case_bool_decide; simpl); auto.
Qed.

Lemma identified_outcomes_witness :
  ensureAdmin
    {| body := ∅; params_username := "u2";
       locals_user := Some {| username := JS.Str "u1"; isAdmin := JS.Bool false |} |}
  = Next
  ∨ ensureAdmin
      {| body := ∅; params_username := "u2";
         locals_user := Some {| username := JS.Str "u1"; isAdmin := JS.Bool false |} |}
    = NextErr UnauthorizedError.
Proof.
  refine (proj1 (proj2 (identified_outcomes _
            {| username := JS.Str "u1"; isAdmin := JS.Bool false |} _))).
  reflexivity.
Defined.

End auth_relations.

(** ** authenticateJWT *)

Section token_facts.
Import Token.

Implicit Types (s t : string) (verify : string → option Auth.user).

Lemma trim_start_head s c rest :
  trim_start s = String c rest → is_space c = false.
Proof.
  induction s as [|a s IH]; simpl; [done|].
  destruct (is_space a) eqn:Ha; [done|]. by intros [= <- <-].
Qed.

Lemma trim_end_nonempty_iff s :
  trim_end s = "" ↔ trim_start s = "".
Proof.
  induction s as [|a s IH]; simpl; [done|].
  destruct (is_space a) eqn:Ha.
  - rewrite <- IH. by destruct (trim_end s).
  - split; [|done]. by destruct (trim_end s).
Qed.

Lemma trim_end_head (c : ascii) (rest : string) :
  is_space c = false → ∃ rest', trim_end (String c rest) = String c rest'.
Proof.
  intros Hc. simpl. destruct (trim_end rest); rewrite ?Hc; eauto.
Qed.

(** The last character of a string, if it has one. *)
Lemma trim_end_last s c :
  last (String.list_ascii_of_string (trim_end s)) = Some c → is_space c = false.
Proof.
  revert c. induction s as [|a s IH]; simpl; [done|]. intros c.
  destruct (trim_end s) as [|b kept] eqn:Hs.
  - destruct (is_space a) eqn:Ha; simpl; [done|]. by intros [= <-].
  - simpl. intros Hlast. apply IH. simpl. by destruct (String.list_ascii_of_string kept).
Qed.

(** X7: The token handed to [jwt.verify] neither starts nor ends with a blank,
    whatever the header is. *)
Theorem token_has_no_outer_blank (authHeader : string) :
  (∀ c, head (String.list_ascii_of_string (token_of authHeader)) = Some c → is_space c = false)
  ∧ (∀ c, last (String.list_ascii_of_string (token_of authHeader)) = Some c → is_space c = false).
Proof.
  unfold token_of, trim. split; intros c Hc.
  - destruct (trim_start (strip_bearer authHeader)) as [|a rest] eqn:Hs; [done|].
    pose proof (trim_start_head _ _ _ Hs) as Ha.
    destruct (trim_end_head a rest Ha) as [rest' Hrest].
    rewrite Hrest in Hc. simpl in Hc. by simplify_eq.
  - by eapply trim_end_last.
Qed.

(** X8: The Bearer prefix, with either capital, is optional: a header that
    does not start with it gives [jwt.verify] the same token as that header
    with the prefix put in front. *)
Theorem bearer_prefix_is_optional t :
  strip_bearer t = t →
  token_of ("Bearer " +:+ t) = token_of t ∧ token_of ("bearer " +:+ t) = token_of t.
Proof. unfold token_of. intros Hbare. simpl. by rewrite Hbare. Qed.

Lemma bearer_prefix_is_optional_witness :
  token_of ("Bearer " +:+ "eyJhbGciOi.eyJ1c2VybmFtZSI6.c2ln")
  = token_of "eyJhbGciOi.eyJ1c2VybmFtZSI6.c2ln".
Proof.
  refine (proj1 (bearer_prefix_is_optional "eyJhbGciOi.eyJ1c2VybmFtZSI6.c2ln" _)).
  reflexivity.
Defined.

(** X5: authenticateJWT always calls [next()] without an error, and starting
    from a response without identity, ensureLoggedIn then lets the request
    through exactly when there is a non-empty authorization header whose
    token [jwt.verify] accepts; the identity is then the payload. *)
Theorem authenticate_then_ensureLoggedIn verify (authorization : option string)
    (b : gmap string JS.value) (p : string) :
  (authenticateJWT verify authorization None).1 = Auth.Next
  ∧ (Auth.ensureLoggedIn
       {| Auth.body := b; Auth.params_username := p;
          Auth.locals_user := (authenticateJWT verify authorization None).2 |}
     = Auth.Next
     ↔ ∃ authHeader payload,
         authorization = Some authHeader ∧ authHeader ≠ ""
         ∧ verify (token_of authHeader) = Some payload
         ∧ (authenticateJWT verify authorization None).2 = Some payload).
Proof.
  unfold authenticateJWT, Auth.ensureLoggedIn, Auth.try_next.
  destruct authorization as [[|c h]|]; simpl.
  - split; [done|]. split; [done|]. intros (? & ? & ? & ? & _). by simplify_eq.
  - destruct (verify _) as [payload|] eqn:Hv; simpl.
    + split; [done|]. split; [|done]. intros _. by exists (String c h), payload.
    + split; [done|]. split; [done|]. intros (? & ? & ? & _ & ? & _).
      by simplify_eq.
  - split; [done|]. split; [done|]. by intros (? & ? & ? & _).
Qed.

(** X6: Whatever the header and the verifier are, authenticateJWT leaves in
    [res.locals.user] either what was there or a payload the verifier
    returned for the token of the header: no identity comes from anywhere
    else. *)
Theorem identity_only_from_verified_token verify (authorization : option string)
    (before : option Auth.user) :
  (authenticateJWT verify authorization before).2 = before
  ∨ ∃ authHeader payload,
      authorization = Some authHeader
      ∧ verify (token_of authHeader) = Some payload
      ∧ (authenticateJWT verify authorization before).2 = Some payload.
Proof.
  unfold authenticateJWT. destruct authorization as [h|]; [|by left].
  destruct (JS.truthy _); [|by left].
  destruct (verify _) as [payload|] eqn:Hv; [|by left].
  right. by exists h, payload.
Qed.

End token_facts.

(** ** The statements of update *)

Section update_facts.

Implicit Types (data : list (string * JS.value)) (handle id : string).

(** [$n+1] is none of [$1 .. $n]. *)
Lemma next_placeholder_fresh (n : nat) :
  Sql.placeholder (n + 1) ∉ Sql.placeholder <$> seq 1 n.
Proof.
  intros Hin. apply list_elem_of_fmap in Hin as (m & Heq & Hm).
  apply (inj Sql.placeholder) in Heq. apply elem_of_seq in Hm. lia.
Qed.

Lemma update_params_lookup data (last : JS.value) :
  (data.*2 ++ [last]) !! length data = Some last
  ∧ ∀ i k v, data !! i = Some (k, v) → (data.*2 ++ [last]) !! i = Some v.
Proof.
  split.
  - rewrite lookup_app_r by (by rewrite length_fmap).
    by rewrite length_fmap, Nat.sub_diag.
  - intros i k v Hi. rewrite lookup_app_l
      by (rewrite length_fmap; by eapply lookup_lt_Some).
    by rewrite list_lookup_fmap, Hi.
Qed.

(** The SET text of a statement: clause i is the quoted column followed
    by [=$i]. *)
Lemma set_text tbl (keys : list string) :
  JS.join ", " (Sql.cols tbl keys)
  = String.concat ", "
      (imap (fun i k => String "034" (Sql.column tbl k
                          +:+ String "034" ("=$" +:+ pretty (i + 1)))) keys).
Proof. by rewrite join_concat. Qed.

(** X9: Company.update, for a non-empty update: the statement has one
    parameter more than the update has fields; SET clause i is the quoted
    column followed by [=$i], for the N values in order; the WHERE clause
    carries [$N+1], which is none of [$1 .. $N]; and parameter N+1 is the
    handle. *)
Theorem company_update_statement handle data :
  data ≠ [] →
  ∃ s,
    CompanyStore.update_statement handle data = Return s
    ∧ text s =
        nl +:+ "      UPDATE companies" +:+
        nl +:+ "      SET "
           +:+ String.concat ", "
                 (imap (fun i k =>
                          String "034" (Sql.column CompanyStore.jsToSql k
                            +:+ String "034" ("=$" +:+ pretty (i + 1))))
                       data.*1) +:+
        nl +:+ "        WHERE handle = " +:+ ("$" +:+ pretty (length data + 1)) +:+
        nl +:+ "        RETURNING handle, name, description, num_employees AS "
           +:+ String "034" ("numEmployees" +:+ String "034" (", logo_url AS "
           +:+ String "034" ("logoUrl" +:+ String "034" "")))
    ∧ params s = data.*2 ++ [JS.Str handle]
    ∧ length (params s) = length data + 1
    ∧ params s !! length data = Some (JS.Str handle)
    ∧ (∀ i k v, data !! i = Some (k, v) → params s !! i = Some v)
    ∧ ("$" +:+ pretty (length data + 1))
        ∉ (fun n : nat => "$" +:+ pretty n) <$> seq 1 (length data).
Proof.
  intros Hne. unfold CompanyStore.update_statement.
  rewrite sqlForPartialUpdate_nonempty by done.
  eexists. split; [reflexivity|]. simpl. rewrite length_fmap.
  split_and!; [ | done | | | | apply next_placeholder_fresh].
  - by rewrite set_text.
  - rewrite length_app, length_fmap. simpl. lia.
  - apply update_params_lookup.
  - apply update_params_lookup.
Qed.

Lemma company_update_statement_witness :
  ∃ s,
    CompanyStore.update_statement "c1" [("name", JS.Str "C1-new"); ("numEmployees", JS.Num 7)]
    = Return s
    ∧ params s = [JS.Str "C1-new"; JS.Num 7; JS.Str "c1"].
Proof.
  destruct (company_update_statement "c1"
              [("name", JS.Str "C1-new"); ("numEmployees", JS.Num 7)])
    as (s & Hs & _ & Hparams & _).
  - discriminate.
  - exists s. split; [exact Hs | exact Hparams].
Defined.

(** The table of Job.update maps each of its keys to itself, so a field
    name is only ever replaced when [Object.prototype] knows it. *)
Lemma job_column_verbatim (k : string) :
  Obj.prototype_text !! k = None → Sql.column JobStore.jsToSql k = k.
Proof.
  intros Hk. unfold Sql.column, JobStore.jsToSql. rewrite Hk.
  destruct (decide (k = "title")) as [->|?]; [done|].
  destruct (decide (k = "salary")) as [->|?]; [done|].
  destruct (decide (k = "equity")) as [->|?]; [done|].
  by rewrite !lookup_insert_ne, lookup_empty.
Qed.

(** X10: Job.update, for a non-empty update none of whose field names is a
    property name of [Object.prototype]: SET clause i is the field name
    itself, quoted, followed by [=$i], whether or not the table lists the
    name; the WHERE clause carries [$N+1], which is none of [$1 .. $N];
    and parameter N+1 is the id. *)
Theorem job_update_statement id data :
  data ≠ [] →
  Forall (fun k => Obj.prototype_text !! k = None) data.*1 →
  ∃ s,
    JobStore.update_statement id data = Return s
    ∧ text s =
        "UPDATE jobs" +:+
        nl +:+ "                        SET "
           +:+ String.concat ", "
                 (imap (fun i k =>
                          String "034" (k +:+ String "034" ("=$" +:+ pretty (i + 1))))
                       data.*1) +:+
        nl +:+ "                        WHERE id=" +:+ ("$" +:+ pretty (length data + 1)) +:+
        nl +:+ "                        RETURNING id, title, salary, equity, company_handle as "
           +:+ String "034" ("companyHandle" +:+ String "034" "")
    ∧ params s = data.*2 ++ [JS.Str id]
    ∧ length (params s) = length data + 1
    ∧ params s !! length data = Some (JS.Str id)
    ∧ (∀ i k v, data !! i = Some (k, v) → params s !! i = Some v)
    ∧ ("$" +:+ pretty (length data + 1))
        ∉ (fun n : nat => "$" +:+ pretty n) <$> seq 1 (length data).
Proof.
  intros Hne Hkeys. unfold JobStore.update_statement.
  rewrite sqlForPartialUpdate_nonempty by done.
  eexists. split; [reflexivity|]. simpl. rewrite length_fmap.
  split_and!; [ | done | | | | apply next_placeholder_fresh].
  - rewrite set_text. do 5 f_equal. apply imap_ext.
    intros i k Hk. simpl. rewrite job_column_verbatim; [done|].
    exact (Forall_lookup_1 _ _ i k Hkeys Hk).
  - rewrite length_app, length_fmap. simpl. lia.
  - apply update_params_lookup.
  - apply update_params_lookup.
Qed.

Lemma job_update_statement_witness :
  ∃ s,
    JobStore.update_statement "17" [("title", JS.Str "new"); ("salary", JS.Num 500)]
    = Return s
    ∧ params s = [JS.Str "new"; JS.Num 500; JS.Str "17"].
Proof.
  destruct (job_update_statement "17"
              [("title", JS.Str "new"); ("salary", JS.Num 500)])
    as (s & Hs & _ & Hparams & _).
  - discriminate.
  - repeat constructor.
  - exists s. split; [exact Hs | exact Hparams].
Defined.

(** X11: With nothing to update, neither update reaches the database: whatever
    [db.query] would answer, the outcome is the BadRequestError of
    sqlForPartialUpdate, never a row and never NotFoundError. *)
Theorem update_of_nothing_is_bad_request
    (row : Type) (query : statement → list row) (handle id : string) :
  CompanyStore.update_statement handle [] = Throw (BadRequestError "No data")
  ∧ JobStore.update_statement id [] = Throw (BadRequestError "No data")
  ∧ CompanyStore.update query handle [] = Thrown (BadRequestError "No data")
  ∧ JobStore.update query id [] = Thrown (BadRequestError "No data").
Proof. by split_and!. Qed.

(** X12: The text of an update statement is fixed by the field names alone: the
    values and the handle or id only ever travel as parameters. *)
Theorem update_text_ignores_values handle1 handle2 id1 id2 data1 data2 :
  data1.*1 = data2.*1 →
  prepared_text (CompanyStore.update_statement handle1 data1)
  = prepared_text (CompanyStore.update_statement handle2 data2)
  ∧ prepared_text (JobStore.update_statement id1 data1)
    = prepared_text (JobStore.update_statement id2 data2).
Proof.
  intros Hkeys.
  assert (length data1 = length data2) as Hlen.
  { by rewrite <- (length_fmap fst data1), Hkeys, length_fmap. }
  destruct data1 as [|kv1 data1], data2 as [|kv2 data2]; try done.
  unfold CompanyStore.update_statement, JobStore.update_statement.
  rewrite !sqlForPartialUpdate_nonempty by done. simpl.
  rewrite !length_fmap. simpl in Hkeys, Hlen.
  injection Hkeys as Hk Hks. injection Hlen as Hlen.
  by rewrite Hk, Hks, Hlen.
Qed.

Lemma update_text_ignores_values_witness :
  prepared_text (CompanyStore.update_statement "c1" [("name", JS.Str "A")])
  = prepared_text (CompanyStore.update_statement "c2" [("name", JS.Null)]).
Proof.
  refine (proj1 (update_text_ignores_values "c1" "c2" "1" "2"
                   [("name", JS.Str "A")] [("name", JS.Null)] _)).
  reflexivity.
Defined.

End update_facts.

(** ** Closed forms of the WHERE fragments *)

Section builder_closed_forms.

Local Ltac split_company t :=
  destruct t as [[[|? ?]|] [lo|] [hi|]]; simpl;
  repeat match goal with
    | |- context [(?z =? 0)%Z] => destruct (Z.eqb_spec z 0); simpl
    | |- context [(?a >? ?b)%Z] => destruct (Z.gtb_spec a b); simpl
    end.

(** The templates the company builder uses for a filter map, in order. *)
Let company_templates (t : Company.searchTerms) : list string :=
  (if opt_truthy JS.Str (Company.name t) then ["name ILIKE $"] else [])
  ++ (if opt_truthy JS.Num (Company.minEmployees t) then ["num_employees >= $"] else [])
  ++ (if opt_truthy JS.Num (Company.maxEmployees t) then ["num_employees <= $"] else []).

Let company_values (t : Company.searchTerms) : list JS.value :=
  (like_pattern <$> option_list (keep_truthy JS.Str (Company.name t)))
  ++ (JS.Num <$> option_list (keep_truthy JS.Num (Company.minEmployees t)))
  ++ (JS.Num <$> option_list (keep_truthy JS.Num (Company.maxEmployees t))).

Lemma company_closed_form t r :
  Company._makeWhereClause t = Return r →
  whereClause r = JS.join " AND " (numbered (company_templates t))
  ∧ values r = company_values t.
Proof.
  unfold Company._makeWhereClause, Company.fill, Company.step_max,
    Company.step_min, Company.step_name, Company.inverted,
    mbind, completion_bind, company_templates, company_values.
  split_company t; intros Hr; simplify_eq; split; reflexivity.
Qed.

(** X13: Company._makeWhereClause, whenever it returns: the fragment is the
    clauses of the truthy keys, in the order name, minEmployees,
    maxEmployees, joined by AND and numbered [$1], [$2], ... without a gap;
    the values are the pattern of the name and the two bounds, for the
    truthy keys in the same order, so the i-th value belongs to [$i] and
    the array has no hole. *)
Theorem company_where_closed_form t r :
  Company._makeWhereClause t = Return r →
  whereClause r
  = JS.join " AND " (numbered (
      (if opt_truthy JS.Str (Company.name t) then ["name ILIKE $"] else [])
      ++ (if opt_truthy JS.Num (Company.minEmployees t) then ["num_employees >= $"] else [])
      ++ (if opt_truthy JS.Num (Company.maxEmployees t) then ["num_employees <= $"] else [])))
  ∧ values r
    = (like_pattern <$> option_list (keep_truthy JS.Str (Company.name t)))
      ++ (JS.Num <$> option_list (keep_truthy JS.Num (Company.minEmployees t)))
      ++ (JS.Num <$> option_list (keep_truthy JS.Num (Company.maxEmployees t)))
  ∧ JS.Undefined ∉ values r.
Proof.
  intros Hr. destruct (company_closed_form t r Hr) as [Htext Hvals].
  split_and!; [exact Htext | exact Hvals |].
  rewrite Hvals. unfold company_values. rewrite !elem_of_app, !list_elem_of_fmap.
  intros [(? & ? & _) | [(? & ? & _) | (? & ? & _)]]; done.
Qed.

Lemma company_where_closed_form_witness :
  whereClause {| whereClause := "name ILIKE $1 AND num_employees <= $2";
                 values := [JS.Str "%net%"; JS.Num 40] |}
  = JS.join " AND " (numbered ["name ILIKE $"; "num_employees <= $"]).
Proof.
  refine (proj1 (company_where_closed_form
            {| Company.name := Some "net"; Company.minEmployees := Some 0%Z;
               Company.maxEmployees := Some 40%Z |} _ _)).
  reflexivity.
Defined.

(** X14: The company builder returns the empty string as its fragment exactly
    when none of the three keys is truthy. *)
Theorem company_where_empty_iff t r :
  Company._makeWhereClause t = Return r →
  whereClause r = "" ↔
    opt_truthy JS.Str (Company.name t) = false
    ∧ opt_truthy JS.Num (Company.minEmployees t) = false
    ∧ opt_truthy JS.Num (Company.maxEmployees t) = false.
Proof.
  intros Hr. destruct (company_closed_form t r Hr) as [-> _].
  unfold company_templates.
  destruct (opt_truthy JS.Str _), (opt_truthy JS.Num (Company.minEmployees t)),
    (opt_truthy JS.Num (Company.maxEmployees t)); simpl;
    split; (try done); (try by intros (? & ? & ?)); by intros [=].
Qed.

Lemma company_where_empty_iff_witness :
  whereClause {| whereClause := "num_employees >= $1"; values := [JS.Num 3] |} = ""
  ↔ opt_truthy JS.Str None = false
    ∧ opt_truthy JS.Num (Some 3%Z) = false
    ∧ opt_truthy JS.Num (@None Z) = false.
Proof.
  refine (company_where_empty_iff
            {| Company.name := None; Company.minEmployees := Some 3%Z;
               Company.maxEmployees := None |} _ _).
  reflexivity.
Defined.

(** X15: The text of a company fragment is fixed by which keys are truthy: the
    name and the bounds themselves only ever travel as bound values. *)
Theorem company_where_text_ignores_values t1 t2 r1 r2 :
  opt_truthy JS.Str (Company.name t1) = opt_truthy JS.Str (Company.name t2) →
  opt_truthy JS.Num (Company.minEmployees t1) = opt_truthy JS.Num (Company.minEmployees t2) →
  opt_truthy JS.Num (Company.maxEmployees t1) = opt_truthy JS.Num (Company.maxEmployees t2) →
  Company._makeWhereClause t1 = Return r1 →
  Company._makeWhereClause t2 = Return r2 →
  whereClause r1 = whereClause r2.
Proof.
  intros Hn Hlo Hhi Hr1 Hr2.
  destruct (company_closed_form t1 r1 Hr1) as [-> _].
  destruct (company_closed_form t2 r2 Hr2) as [-> _].
  unfold company_templates. by rewrite Hn, Hlo, Hhi.
Qed.

Lemma company_where_text_ignores_values_witness :
  whereClause {| whereClause := "name ILIKE $1 AND num_employees >= $2";
                 values := [JS.Str "%a%"; JS.Num 1] |}
  = whereClause {| whereClause := "name ILIKE $1 AND num_employees >= $2";
                   values := [JS.Str "%1=1; --%"; JS.Num 900] |}.
Proof.
  refine (company_where_text_ignores_values
            {| Company.name := Some "a"; Company.minEmployees := Some 1%Z;
               Company.maxEmployees := None |}
            {| Company.name := Some "1=1; --"; Company.minEmployees := Some 900%Z;
               Company.maxEmployees := Some 0%Z |} _ _ _ _ _ _ _);
    reflexivity.
Defined.

Lemma job_closed_form t :
  Job._makeWhereClause t
  = {| whereClause :=
         JS.join " AND " (
           numbered (
             (if opt_truthy JS.Str (Job.title t) then ["title ILIKE $"] else [])
             ++ (if opt_truthy JS.Num (Job.minSalary t) then ["salary >= $"] else []))
           ++ [if decide (Job.hasEquity t = JS.Str "true") then "equity > 0.0" else "1=1"]);
       values :=
         (like_pattern <$> option_list (keep_truthy JS.Str (Job.title t)))
         ++ (JS.Num <$> option_list (keep_truthy JS.Num (Job.minSalary t))) |}.
Proof.
  unfold Job._makeWhereClause, Job.fill, Job.step_equity, Job.step_salary,
    Job.step_title, JS.strict_eq.
  destruct t as [ti sa h]. cbn [Job.title Job.minSalary Job.hasEquity].
  destruct (decide (h = JS.Str "true")) as [->|Hne];
    [rewrite bool_decide_eq_true_2 by done | rewrite bool_decide_eq_false_2 by done];
    destruct ti as [[|? ?]|], sa as [lo|]; simpl; try reflexivity;
    destruct (Z.eqb_spec lo 0); reflexivity.
Qed.

(** X16: Job._makeWhereClause always returns: the fragment is the clauses of
    the truthy ones among title and minSalary, in that order and numbered
    [$1], [$2] without a gap, then the equity clause or the tautology, all
    joined by AND; the values are the pattern of the title and the salary,
    for the truthy keys in the same order. *)
Theorem job_where_closed_form t :
  Job._makeWhereClause t
  = {| whereClause :=
         JS.join " AND " (
           numbered (
             (if opt_truthy JS.Str (Job.title t) then ["title ILIKE $"] else [])
             ++ (if opt_truthy JS.Num (Job.minSalary t) then ["salary >= $"] else []))
           ++ [if decide (Job.hasEquity t = JS.Str "true") then "equity > 0.0" else "1=1"]);
       values :=
         (like_pattern <$> option_list (keep_truthy JS.Str (Job.title t)))
         ++ (JS.Num <$> option_list (keep_truthy JS.Num (Job.minSalary t))) |}.
Proof. apply job_closed_form. Qed.

(** X17: The text of a job fragment is fixed by which of title and minSalary are
    truthy and by whether hasEquity is the string true: the title and the
    salary themselves only ever travel as bound values. *)
Theorem job_where_text_ignores_values t1 t2 :
  opt_truthy JS.Str (Job.title t1) = opt_truthy JS.Str (Job.title t2) →
  opt_truthy JS.Num (Job.minSalary t1) = opt_truthy JS.Num (Job.minSalary t2) →
  (Job.hasEquity t1 = JS.Str "true" ↔ Job.hasEquity t2 = JS.Str "true") →
  whereClause (Job._makeWhereClause t1) = whereClause (Job._makeWhereClause t2).
Proof.
  intros Ht Hs He. rewrite !job_closed_form. simpl. rewrite Ht, Hs.
  by repeat case_decide; try tauto.
Qed.

Lemma job_where_text_ignores_values_witness :
  whereClause (Job._makeWhereClause
    {| Job.title := Some "eng"; Job.minSalary := None; Job.hasEquity := JS.Str "false" |})
  = whereClause (Job._makeWhereClause
    {| Job.title := Some "x' OR 1=1"; Job.minSalary := Some 0%Z; Job.hasEquity := JS.Undefined |}).
Proof.
  apply job_where_text_ignores_values; [reflexivity | reflexivity | split; discriminate].
Defined.

End builder_closed_forms.
